(** * Tabular epsilon-greedy Q-learning agent (TD/qlearning.py)

    A shallow embedding of [QLearningAgent] and the properties of its value
    store, policy evaluator, action selector and learner.

    Modelling choices.
    - Python numbers (Q-values, rewards, hyperparameters) are the elements
      of an interface [PyNumber]: a type [num] with Python's [+], [-], [*],
      the literals the agent writes, the exact rational value [val] of a
      finite number, which is what Python's comparisons compare, and the
      conversion numpy applies to a list it turns into an array.  The agent
      is modelled over any such interface, so nothing proved about it rests
      on a law of arithmetic.  The instance [python] gives the interface for
      [int] and binary64 [float]; non-finite floats are outside the model.
    - [self._qValues], a [defaultdict] of [defaultdict]s, is a two-level
      [gmap]; subscripting a missing key inserts the factory's value, and
      that insertion is part of the model.
    - The methods mutate [self], so each one is a computation in a state
      monad over the agent record.
    - The two random draws of [getAction] are explicit arguments. *)

From Stdlib Require Import ZArith QArith Lqa.
From Stdlib Require Import PrimFloat SpecFloat FloatOps.
From stdpp Require Import gmap list strings.

(** ** Python numbers *)

Class PyNumber : Type := {
  (** the numbers: [int]s and [float]s *)
  num : Type;
  (** the exact value of a finite number; [x < y], [x <= y] and [x == y] in
      Python compare these values *)
  val : num → Q;
  (** [x + y], [x - y], [x * y] *)
  num_add : num → num → num;
  num_sub : num → num → num;
  num_mul : num → num → num;
  (** an [int] literal, such as [0] and [1] *)
  py_int : Z → num;
  (** the [float] literal [0.0] *)
  py_float_zero : num;
  (** [np_item xs x]: the value that the item [x] of the list [xs] has in
      the array [np.asarray(xs)], whose element type numpy chooses from the
      whole list *)
  np_item : list num → num → Q
}.

Declare Scope num_scope.
Delimit Scope num_scope with num.
Infix "+" := num_add : num_scope.
Infix "-" := num_sub : num_scope.
Infix "*" := num_mul : num_scope.

(** ** Python primitives used by the agent *)

(** [d[k]] on a [defaultdict] whose factory returns [factory]: a hit returns
    the stored value; a miss stores the factory's value under [k] and returns
    it. *)
Definition dd_getitem {K V : Type} `{Countable K}
    (factory : V) (k : K) (d : gmap K V) : V * gmap K V :=
  match d !! k with
  | Some v => (v, d)
  | None => (factory, <[k := factory]> d)
  end.

(** The loop of the builtin [max]: the running maximum is replaced only by a
    strictly greater item. *)
Definition max_step `{PyNumber} (m x : num) : num :=
  if Qlt_le_dec (val m) (val x) then x else m.

(** [max(xs)] for a list.  The empty list raises [ValueError] in Python; the
    agent only calls it behind a [len(...) == 0] guard, on a list as long as
    the list of legal actions, so the value given here for [[]] is never
    used. *)
Definition py_max `{PyNumber} (xs : list num) : num :=
  match xs with
  | [] => py_int 0
  | x :: xs' => fold_left max_step xs' x
  end.

(** The scan of [argmax] over the items of an array: the index of the first
    occurrence of the maximum.  [bi] and [b] are the index and value of the
    best item so far, [i] the index of the head of [xs]. *)
Fixpoint argmax_from (bi : nat) (b : Q) (i : nat) (xs : list Q) : nat :=
  match xs with
  | [] => bi
  | x :: xs' =>
      if Qlt_le_dec b x then argmax_from i x (S i) xs'
      else argmax_from bi b (S i) xs'
  end.

Definition argmax_items (xs : list Q) : nat :=
  match xs with
  | [] => 0
  | x :: xs' => argmax_from 0 x 1 xs'
  end.

(** [np.argmax(xs)] for a list: the list is first converted to an array,
    then scanned.  As for [py_max], the agent never passes the empty
    list. *)
Definition np_argmax `{PyNumber} (xs : list num) : nat :=
  argmax_items (np_item xs <$> xs).

(** [i] is the first index at which [xs] attains its maximum. *)
Definition first_max_index (xs : list Q) (i : nat) : Prop :=
  ∃ m, xs !! i = Some m
       ∧ (∀ j y, xs !! j = Some y → (y <= m)%Q)
       ∧ (∀ j y, j < i → xs !! j = Some y → (y < m)%Q).

(** The conversion of [xs] to an array does not reverse the order of two
    items.  Conversions to a wider or to a floating-point element type are
    of this kind. *)
Definition np_monotone `{PyNumber} (xs : list num) : Prop :=
  ∀ x y, x ∈ xs → y ∈ xs →
         (val x <= val y)%Q → (np_item xs x <= np_item xs y)%Q.



(** [random.choice(seq)] is [seq[k]] for the index [k] it draws below
    [len(seq)]; for such a [k] the lookup yields an element. *)
Definition random_choice {A : Type} (k : nat) (seq : list A) : option A :=
  seq !! k.

Section QLearning.
Context `{PyNumber}.
Context {State Action : Type}.
Context `{Countable State} `{Countable Action}.

(** ** The agent *)

Record QLearningAgent : Type := mkAgent {
  getLegalActions : State → list Action;
  _qValues : gmap State (gmap Action num);
  alpha : num;
  epsilon : num;
  discount : num
}.

(** [QLearningAgent.__init__] *)
Definition __init__ (alpha epsilon discount : num)
    (getLegalActions : State → list Action) : QLearningAgent :=
  {| getLegalActions := getLegalActions;
     _qValues := ∅;
     alpha := alpha;
     epsilon := epsilon;
     discount := discount |}.

(** Assignments to the agent's attributes. *)
Definition set_qValues (q : gmap State (gmap Action num))
    (self : QLearningAgent) : QLearningAgent :=
  {| getLegalActions := getLegalActions self;
     _qValues := q;
     alpha := alpha self;
     epsilon := epsilon self;
     discount := discount self |}.

Definition set_alpha (v : num) (self : QLearningAgent) : QLearningAgent :=
  {| getLegalActions := getLegalActions self;
     _qValues := _qValues self;
     alpha := v;
     epsilon := epsilon self;
     discount := discount self |}.

Definition set_epsilon (v : num) (self : QLearningAgent) : QLearningAgent :=
  {| getLegalActions := getLegalActions self;
     _qValues := _qValues self;
     alpha := alpha self;
     epsilon := v;
     discount := discount self |}.

Definition set_discount (v : num) (self : QLearningAgent) : QLearningAgent :=
  {| getLegalActions := getLegalActions self;
     _qValues := _qValues self;
     alpha := alpha self;
     epsilon := epsilon self;
     discount := v |}.

(** ** Methods as computations on the agent *)

Definition M (A : Type) : Type := QLearningAgent → A * QLearningAgent.

#[global] Instance M_ret : MRet M := λ A x self, (x, self).

#[global] Instance M_bind : MBind M :=
  λ A B f m self, let '(x, self') := m self in f x self'.

Definition eval {A : Type} (m : M A) (self : QLearningAgent) : A :=
  fst (m self).

Definition exec {A : Type} (m : M A) (self : QLearningAgent)
    : QLearningAgent :=
  snd (m self).

(** A list comprehension [[f(a) for a in xs]] with an effectful [f]. *)
Fixpoint for_each {A B : Type} (f : A → M B) (xs : list A) : M (list B) :=
  match xs with
  | [] => mret []
  | x :: xs' => y ← f x; ys ← for_each f xs'; mret (y :: ys)
  end.

(** [self._qValues[state][action]] as an expression: the outer subscript
    may insert an empty row, the inner one may insert the int [0] into the
    row, which the outer dictionary holds by reference. *)
Definition qValues_getitem (state : State) (action : Action)
    (q : gmap State (gmap Action num))
    : num * gmap State (gmap Action num) :=
  let '(row, q1) := dd_getitem ∅ state q in
  let '(v, row') := dd_getitem (py_int 0) action row in
  (v, <[state := row']> q1).

(** [self._qValues[state][action] = value]: the outer subscript is a read
    (it may insert an empty row), the inner one a store. *)
Definition qValues_setitem (state : State) (action : Action) (value : num)
    (q : gmap State (gmap Action num)) : gmap State (gmap Action num) :=
  let '(row, q1) := dd_getitem ∅ state q in
  <[state := <[action := value]> row]> q1.

(** Reading and replacing [self] inside a method. *)
Definition get_self : M QLearningAgent := λ self, (self, self).

Definition put_self (self : QLearningAgent) : M unit := λ _, (tt, self).

Definition getQValue (state : State) (action : Action) : M num :=
  self ← get_self;
  let '(v, q') := qValues_getitem state action (_qValues self) in
  _ ← put_self (set_qValues q' self);
  mret v.

Definition setQValue (state : State) (action : Action) (value : num)
    : M unit :=
  self ← get_self;
  put_self
    (set_qValues (qValues_setitem state action value (_qValues self)) self).

Definition getValue (state : State) : M num :=
  self ← get_self;
  let possibleActions := getLegalActions self state in
  if Nat.eqb (length possibleActions) 0 then mret py_float_zero
  else
    qs ← for_each (getQValue state) possibleActions;
    mret (py_max qs).

(** The result is [None] for Python's [None], [Some a] for an action.  The
    index that [np_argmax] returns is below the length of the list, so the
    subscript yields an action. *)
Definition getPolicy (state : State) : M (option Action) :=
  self ← get_self;
  let possibleActions := getLegalActions self state in
  if Nat.eqb (length possibleActions) 0 then mret None
  else
    qs ← for_each (getQValue state) possibleActions;
    mret (possibleActions !! np_argmax qs).

(** [u] is the outcome of [np.random.random()], a float in [0, 1), and
    [k] the index drawn by [random.choice]. *)
Definition getAction (state : State) (u : num) (k : nat)
    : M (option Action) :=
  self ← get_self;
  let possibleActions := getLegalActions self state in
  if Nat.eqb (length possibleActions) 0 then mret None
  else
    let epsilon := epsilon self in
    if Qle_bool (val u) (val epsilon)
    then mret (random_choice k possibleActions)
    else getPolicy state.

Definition update (state : State) (action : Action) (nextState : State)
    (reward : num) : M unit :=
  self ← get_self;
  let gamma := discount self in
  let learning_rate := alpha self in
  v ← getValue nextState;
  let reference_qvalue := (reward + gamma * v)%num in
  q ← getQValue state action;
  let updated_qvalue :=
    ((py_int 1 - learning_rate) * q + learning_rate * reference_qvalue)%num in
  setQValue state action updated_qvalue.

(** ** Observations of the value store *)

(** The entry the dictionaries hold for a pair, if any. *)
Definition entry (q : gmap State (gmap Action num)) (state : State)
    (action : Action) : option num :=
  match q !! state with
  | Some row => row !! action
  | None => None
  end.

(** The number a read of the pair yields: the entry, or the factory's 0. *)
Definition stored (q : gmap State (gmap Action num)) (state : State)
    (action : Action) : num :=
  match entry q state action with
  | Some v => v
  | None => py_int 0
  end.

(** [q'] is [q] with, possibly, some absent pairs now holding 0: what
    reading through the [defaultdict]s can do to the store. *)
Definition vivifies (q q' : gmap State (gmap Action num)) : Prop :=
  ∀ state action,
    entry q' state action = entry q state action
    ∨ (entry q state action = None
       ∧ entry q' state action = Some (py_int 0)).

(** The store after the reads of [[getQValue(state, a) for a in actions]]. *)
Definition touch_all (state : State) (actions : list Action)
    (q : gmap State (gmap Action num)) : gmap State (gmap Action num) :=
  fold_left (λ q a, snd (qValues_getitem state a q)) actions q.

(** [self'] has the oracle and hyperparameters of [self], and a store that
    differs at most by absent pairs now holding 0. *)
Definition only_vivified (self self' : QLearningAgent) : Prop :=
  getLegalActions self' = getLegalActions self
  ∧ alpha self' = alpha self
  ∧ epsilon self' = epsilon self
  ∧ discount self' = discount self
  ∧ vivifies (_qValues self) (_qValues self').


(** ** Histories of calls made by a driver *)

Inductive call : Type :=
| CallGetQValue (state : State) (action : Action)
| CallSetQValue (state : State) (action : Action) (value : num)
| CallGetValue (state : State)
| CallGetPolicy (state : State)
| CallGetAction (state : State) (u : num) (k : nat)
| CallUpdate (state : State) (action : Action) (nextState : State)
    (reward : num)
| AssignAlpha (v : num)
| AssignEpsilon (v : num)
| AssignDiscount (v : num).

Definition run_call (c : call) (self : QLearningAgent) : QLearningAgent :=
  match c with
  | CallGetQValue s a => exec (getQValue s a) self
  | CallSetQValue s a v => exec (setQValue s a v) self
  | CallGetValue s => exec (getValue s) self
  | CallGetPolicy s => exec (getPolicy s) self
  | CallGetAction s u k => exec (getAction s u k) self
  | CallUpdate s a ns r => exec (update s a ns r) self
  | AssignAlpha v => set_alpha v self
  | AssignEpsilon v => set_epsilon v self
  | AssignDiscount v => set_discount v self
  end.

Definition run_calls (cs : list call) (self : QLearningAgent)
    : QLearningAgent :=
  fold_left (λ self c, run_call c self) cs self.

(** Does the call perform [setQValue] or [update] on the pair? *)
Definition writes_pair (state : State) (action : Action) (c : call)
    : bool :=
  match c with
  | CallSetQValue s a _ | CallUpdate s a _ _ =>
      bool_decide (s = state) && bool_decide (a = action)
  | _ => false
  end.

(** Is the call one of the two reads [getQValue] and [getValue]? *)
Definition is_read (c : call) : bool :=
  match c with
  | CallGetQValue _ _ | CallGetValue _ => true
  | _ => false
  end.

(** Is the call an assignment to a hyperparameter field, not a method
    call? *)
Definition is_assignment (c : call) : bool :=
  match c with
  | AssignAlpha _ | AssignEpsilon _ | AssignDiscount _ => true
  | _ => false
  end.

End QLearning.

Arguments QLearningAgent : clear implicits.
Arguments QLearningAgent {_} _ _ {_ _ _ _}.
Arguments call : clear implicits.
Arguments call {_} _ _.

(** ** Python's [int] and [float]

    The instance of [PyNumber] for the numbers the agent meets: [int]s of
    any size and binary64 [float]s. *)

Inductive pynum : Type :=
| PyInt (z : Z)
| PyFloat (f : float).

(** [float(z)]: the nearest binary64 number, ties to even.  (Python raises
    [OverflowError] for an int beyond the binary64 range; such ints are
    outside the model.) *)
Definition float_of_int (z : Z) : float :=
  SF2Prim (binary_normalize prec emax z 0%Z false).

(** The operand of a mixed operation as a float. *)
Definition to_float (x : pynum) : float :=
  match x with
  | PyInt z => float_of_int z
  | PyFloat f => f
  end.

(** An arithmetic operation: exact on two ints, the binary64 operation on
    the operands as floats otherwise. *)
Definition py_arith (iop : Z → Z → Z) (fop : float → float → float)
    (x y : pynum) : pynum :=
  match x, y with
  | PyInt a, PyInt b => PyInt (iop a b)
  | _, _ => PyFloat (fop (to_float x) (to_float y))
  end.

(** The exact value of a finite float: sign, mantissa and exponent. *)
Definition float_val (f : float) : Q :=
  match Prim2SF f with
  | S754_finite s m e =>
      (inject_Z (if s then Z.neg m else Z.pos m) * Qpower 2 e)%Q
  | _ => 0%Q
  end.

Definition py_val (x : pynum) : Q :=
  match x with
  | PyInt z => inject_Z z
  | PyFloat f => float_val f
  end.

Definition is_int (x : pynum) : bool :=
  match x with
  | PyInt _ => true
  | PyFloat _ => false
  end.

(** [np.asarray(xs)]: a list of ints becomes an array of integers, whose
    items keep their values; a list with a float in it becomes a float64
    array, each int converted to the nearest float.  (This is numpy's rule
    for ints that fit its 64-bit integers; larger ints are outside the
    model.) *)
Definition py_np_item (xs : list pynum) (x : pynum) : Q :=
  if forallb is_int xs then py_val x else float_val (to_float x).

#[global] Instance python : PyNumber := {
  num := pynum;
  val := py_val;
  num_add := py_arith Z.add PrimFloat.add;
  num_sub := py_arith Z.sub PrimFloat.sub;
  num_mul := py_arith Z.mul PrimFloat.mul;
  py_int := PyInt;
  py_float_zero := PyFloat 0%float;
  np_item := py_np_item
}.

(** [x] is the integer [z], as an [int] or as a [float]. *)
Definition py_is (z : Z) (x : pynum) : Prop :=
  x = PyInt z ∨ x = PyFloat (float_of_int z).

(** The float literals [0.5] and [0.9]: the floats nearest to 1/2 and
    9/10. *)
Definition float_0_5 : float := (1 / 2)%float.
Definition float_0_9 : float := (9 / 10)%float.

(** ** A small agent used to instantiate the statements

    States and actions are strings.  State ["s"] has the legal actions
    [a, x, y], state ["next"] the single action [b], and every other state
    has none. *)

Definition demo_actions (state : string) : list string :=
  if String.eqb state "s" then ["a"; "x"; "y"]
  else if String.eqb state "next" then ["b"]
  else [].

(** [QLearningAgent(alpha=0.5, epsilon=0.0, discount=0.9, demo_actions)] *)
Definition demo_fresh : QLearningAgent string string :=
  __init__ (PyFloat float_0_5) (PyFloat 0) (PyFloat float_0_9) demo_actions.

(** ... after [setQValue("next", "b", 10)] *)
Definition demo_agent : QLearningAgent string string :=
  exec (setQValue "next" "b" (PyInt 10)) demo_fresh.

(** ... after [setQValue("s", "x", 1.0)] and [setQValue("s", "y", 1.0)]:
    the maximum in ["s"] is attained by [x] and by [y], not by [a]. *)
Definition demo_tie : QLearningAgent string string :=
  exec (setQValue "s" "y" (PyFloat 1))
    (exec (setQValue "s" "x" (PyFloat 1)) demo_agent).


(** ** Properties of the Python primitives *)

Section Primitives.
Context `{PyNumber}.



Lemma max_step_cases (m x : num) : max_step m x = m ∨ max_step m x = x.
Proof. unfold max_step. destruct (Qlt_le_dec (val m) (val x)); auto. Qed.



Lemma fold_max_step_elem (xs : list num) (m : num) :
  fold_left max_step xs m ∈ m :: xs.
Proof.
  revert m. induction xs as [|y xs IH]; intros m; simpl.
  - apply list_elem_of_here.
  - specialize (IH (max_step m y)).
    apply elem_of_cons in IH as [Heq|Hin].
    + rewrite Heq. destruct (max_step_cases m y) as [-> | ->].
      * apply list_elem_of_here.
      * apply list_elem_of_further, list_elem_of_here.
    + by do 2 apply list_elem_of_further.
Qed.

(** The builtin [max] of a non-empty list is one of its items and is at least
    every item. *)
Lemma py_max_elem (xs : list num) : xs ≠ [] → py_max xs ∈ xs.
Proof.
  destruct xs as [|x xs]; [done|]. intros _. apply fold_max_step_elem.
Qed.


(** [max] keeps the first item when no later item is greater. *)
Lemma fold_max_step_keeps (xs : list num) (m : num) :
  (∀ y, y ∈ xs → (val y <= val m)%Q) → fold_left max_step xs m = m.
Proof.
  induction xs as [|y xs IH]; intros Hle; simpl; [done|].
  assert (max_step m y = m) as ->.
  { unfold max_step. destruct (Qlt_le_dec (val m) (val y)) as [Hlt|]; [|done].
    assert (val y <= val m)%Q by (apply Hle; by left). lra. }
  apply IH. intros z Hz. apply Hle. by right.
Qed.

Lemma py_max_head (x : num) (xs : list num) :
  (∀ y, y ∈ xs → (val y <= val x)%Q) → py_max (x :: xs) = x.
Proof. apply fold_max_step_keeps. Qed.

End Primitives.

Lemma argmax_from_spec (pre xs : list Q) (bi : nat) (b : Q) :
  (pre ++ xs) !! bi = Some b →
  bi < length pre →
  (∀ j y, j < length pre → (pre ++ xs) !! j = Some y → (y <= b)%Q) →
  (∀ j y, j < bi → (pre ++ xs) !! j = Some y → (y < b)%Q) →
  first_max_index (pre ++ xs) (argmax_from bi b (length pre) xs).
Proof.
  revert pre bi b.
  induction xs as [|x xs IH]; intros pre bi b Hb Hlt Hle Hfirst.
  - simpl. exists b. split; [done|]. split; [|done].
    intros j y Hj. apply (Hle j y); [|done].
    apply lookup_lt_Some in Hj. by rewrite app_nil_r in Hj.
  - simpl. replace (pre ++ x :: xs) with ((pre ++ [x]) ++ xs) in *
      by (by rewrite <- app_assoc).
    replace (S (length pre)) with (length (pre ++ [x]))
      by (rewrite length_app; simpl; lia).
    assert (Hx : ((pre ++ [x]) ++ xs) !! length pre = Some x).
    { rewrite <- app_assoc. simpl. by rewrite list_lookup_middle. }
    destruct (Qlt_le_dec b x) as [Hbx|Hxb].
    + apply IH.
      * done.
      * rewrite length_app. simpl. lia.
      * intros j y Hj Hy. rewrite length_app in Hj. simpl in Hj.
        destruct (decide (j = length pre)) as [->|Hne].
        -- rewrite Hx in Hy. injection Hy as ->. lra.
        -- assert (y <= b)%Q by (apply (Hle j y); [lia|done]). lra.
      * intros j y Hj Hy.
        assert (y <= b)%Q by (apply (Hle j y); [lia|done]). lra.
    + apply IH.
      * done.
      * rewrite length_app. simpl. lia.
      * intros j y Hj Hy. rewrite length_app in Hj. simpl in Hj.
        destruct (decide (j = length pre)) as [->|Hne].
        -- rewrite Hx in Hy. by injection Hy as ->.
        -- apply (Hle j y); [lia|done].
      * done.
Qed.

(** The scan returns the first index of the maximum of a non-empty list. *)
Lemma argmax_items_spec (xs : list Q) :
  xs ≠ [] → first_max_index xs (argmax_items xs).
Proof.
  destruct xs as [|x xs]; [done|]. intros _. simpl.
  apply (argmax_from_spec [x] xs 0 x).
  - done.
  - simpl. lia.
  - intros j y Hj Hy. simpl in Hj. assert (j = 0) as -> by lia.
    simpl in Hy. injection Hy as ->. lra.
  - intros j y Hj. lia.
Qed.

Lemma first_max_index_lt (xs : list Q) (i : nat) :
  first_max_index xs i → i < length xs.
Proof. intros (m & Hm & _). by apply lookup_lt_Some in Hm. Qed.


(** The scan returns 0 when no later item exceeds the first. *)
Lemma argmax_items_head (x : Q) (xs : list Q) :
  (∀ y, y ∈ xs → (y <= x)%Q) → argmax_items (x :: xs) = 0.
Proof.
  intros Hle.
  assert (Hne : x :: xs ≠ []) by done.
  destruct (argmax_items_spec _ Hne) as (m & Hm & _ & Hfirst).
  destruct (argmax_items (x :: xs)) as [|i] eqn:Hi; [done|].
  exfalso. simpl in Hm.
  assert (Hx : (x < m)%Q) by (apply (Hfirst 0); [lia|done]).
  assert (Hmx : (m <= x)%Q) by (by eapply Hle, list_elem_of_lookup_2).
  lra.
Qed.

Section ArgmaxProperties.
Context `{PyNumber}.



Lemma np_argmax_spec (xs : list num) :
  xs ≠ [] → first_max_index (np_item xs <$> xs) (np_argmax xs).
Proof.
  intros Hne. apply argmax_items_spec.
  intros Hnil. by apply fmap_nil_inv in Hnil.
Qed.

Lemma np_argmax_lt (xs : list num) : xs ≠ [] → np_argmax xs < length xs.
Proof.
  intros Hne. pose proof (first_max_index_lt _ _ (np_argmax_spec xs Hne)).
  by rewrite length_fmap in *.
Qed.

(** [np.argmax] is 0 when no later item exceeds the first in the array. *)
Lemma np_argmax_head_items (x : num) (xs : list num) :
  (∀ y, y ∈ xs → (np_item (x :: xs) y <= np_item (x :: xs) x)%Q) →
  np_argmax (x :: xs) = 0.
Proof.
  intros Hle. unfold np_argmax. csimpl. apply argmax_items_head.
  intros q (y & -> & Hy)%list_elem_of_fmap_1. by apply Hle.
Qed.

Lemma np_argmax_head (x : num) (xs : list num) :
  np_monotone (x :: xs) →
  (∀ y, y ∈ xs → (val y <= val x)%Q) →
  np_argmax (x :: xs) = 0.
Proof.
  intros Hmono Hle. apply np_argmax_head_items. intros y Hy.
  apply Hmono; [by right|by left|by apply Hle].
Qed.





End ArgmaxProperties.
(** ** Properties of the value store *)

Section StoreProperties.
Context `{PyNumber}.
Context {State Action : Type}.
Context `{Countable State} `{Countable Action}.
Implicit Types q : gmap State (gmap Action num).
Implicit Types self : QLearningAgent State Action.

(** Case analysis on whether the pair looked at is the pair accessed. *)
Local Ltac store_cases s s' a a' :=
  destruct (decide (s' = s)) as [->|?];
  destruct (decide (a' = a)) as [->|?];
  case_decide; destruct_and?; simplify_map_eq; try done; naive_solver.

(** The entries after the read [self._qValues[s][a]]: the pair read holds
    the value read, every other pair is as before. *)
Lemma entry_getitem q s a s' a' :
  entry (snd (qValues_getitem s a q)) s' a' =
    if decide (s' = s ∧ a' = a) then Some (stored q s a)
    else entry q s' a'.
Proof.
  unfold qValues_getitem, dd_getitem, stored, entry.
  destruct (q !! s) as [row|] eqn:Hrow; simpl.
  - destruct (row !! a) as [v|] eqn:Hv; simpl; store_cases s s' a a'.
  - rewrite lookup_empty. simpl. store_cases s s' a a'.
Qed.

Lemma fst_getitem q s a : fst (qValues_getitem s a q) = stored q s a.
Proof.
  unfold qValues_getitem, dd_getitem, stored, entry.
  destruct (q !! s) as [row|] eqn:Hrow; simpl.
  - by destruct (row !! a).
  - by rewrite lookup_empty.
Qed.

(** The entries after [self._qValues[s][a] = v]. *)
Lemma entry_setitem q s a v s' a' :
  entry (qValues_setitem s a v q) s' a' =
    if decide (s' = s ∧ a' = a) then Some v else entry q s' a'.
Proof.
  unfold qValues_setitem, dd_getitem, entry.
  destruct (q !! s) as [row|] eqn:Hrow; simpl; store_cases s s' a a'.
Qed.

Lemma stored_getitem q s a s' a' :
  stored (snd (qValues_getitem s a q)) s' a' = stored q s' a'.
Proof.
  unfold stored at 1. rewrite entry_getitem.
  destruct (decide (s' = s ∧ a' = a)) as [[-> ->]|]; done.
Qed.

Lemma stored_setitem q s a v s' a' :
  stored (qValues_setitem s a v q) s' a' =
    if decide (s' = s ∧ a' = a) then v else stored q s' a'.
Proof.
  unfold stored at 1. rewrite entry_setitem.
  by destruct (decide (s' = s ∧ a' = a)).
Qed.

Lemma vivifies_refl q : vivifies q q.
Proof. intros s a. by left. Qed.

Lemma vivifies_trans q1 q2 q3 :
  vivifies q1 q2 → vivifies q2 q3 → vivifies q1 q3.
Proof.
  intros H12 H23 s a.
  destruct (H12 s a) as [E12|[N1 E2]], (H23 s a) as [E23|[N2 E3]].
  - left. congruence.
  - right. split; congruence.
  - right. split; congruence.
  - congruence.
Qed.

Lemma vivifies_getitem q s a : vivifies q (snd (qValues_getitem s a q)).
Proof.
  intros s' a'. rewrite entry_getitem.
  destruct (decide (s' = s ∧ a' = a)) as [[-> ->]|]; [|by left].
  unfold stored. destruct (entry q s a); [by left|by right].
Qed.

Lemma vivifies_stored q q' s a :
  vivifies q q' → stored q' s a = stored q s a.
Proof.
  intros Hv. unfold stored.
  destruct (Hv s a) as [->|[-> ->]]; done.
Qed.

Lemma vivifies_touch_all s actions q : vivifies q (touch_all s actions q).
Proof.
  unfold touch_all. revert q.
  induction actions as [|a actions IH]; intros q; simpl.
  - apply vivifies_refl.
  - eapply vivifies_trans; [apply vivifies_getitem|apply IH].
Qed.

Lemma set_qValues_id self : set_qValues (_qValues self) self = self.
Proof. by destruct self. Qed.

End StoreProperties.

(** ** What each method returns and leaves behind *)

Section MethodProperties.
Context `{PyNumber}.
Context {State Action : Type}.
Context `{Countable State} `{Countable Action}.
Implicit Types q : gmap State (gmap Action num).
Implicit Types self : QLearningAgent State Action.

Local Ltac unfold_monad :=
  unfold mbind, M_bind, mret, M_ret, get_self, put_self; simpl.

Lemma bind_run {A B : Type} (m : M A) (f : A → M B) self :
  (m ≫= f) self = f (fst (m self)) (snd (m self)).
Proof. unfold mbind, M_bind. by destruct (m self). Qed.

Lemma get_self_bind_run {B : Type} (f : QLearningAgent State Action → M B)
    self :
  (get_self ≫= f) self = f self self.
Proof. done. Qed.

Lemma length_zero_nil {A : Type} (xs : list A) :
  Nat.eqb (length xs) 0 = true ↔ xs = [].
Proof. destruct xs; simpl; split; intros; done. Qed.

Lemma length_zero_cons {A : Type} (xs : list A) :
  xs ≠ [] → Nat.eqb (length xs) 0 = false.
Proof. by destruct xs. Qed.

Lemma getQValue_run s a self :
  getQValue s a self =
    (stored (_qValues self) s a,
     set_qValues (snd (qValues_getitem s a (_qValues self))) self).
Proof.
  unfold getQValue. unfold_monad. rewrite <- fst_getitem.
  by destruct (qValues_getitem s a (_qValues self)).
Qed.

Lemma setQValue_run s a v self :
  setQValue s a v self =
    (tt, set_qValues (qValues_setitem s a v (_qValues self)) self).
Proof. done. Qed.

Lemma for_each_getQValue_run s actions self :
  for_each (getQValue s) actions self =
    (stored (_qValues self) s <$> actions,
     set_qValues (touch_all s actions (_qValues self)) self).
Proof.
  revert self. induction actions as [|a actions IH]; intros self.
  - simpl. unfold_monad. by rewrite set_qValues_id.
  - simpl. unfold mbind at 1, M_bind at 1. rewrite getQValue_run.
    unfold mbind at 1, M_bind at 1. rewrite IH. unfold_monad.
    f_equal. f_equal.
    apply list_fmap_ext. intros i a' _. apply stored_getitem.
Qed.

Lemma getValue_nil s self :
  getLegalActions self s = [] → getValue s self = (py_float_zero, self).
Proof.
  intros HA. unfold getValue. rewrite get_self_bind_run. by rewrite HA.
Qed.

Lemma getValue_cons s self :
  getLegalActions self s ≠ [] →
  getValue s self =
    (py_max (stored (_qValues self) s <$> getLegalActions self s),
     set_qValues (touch_all s (getLegalActions self s) (_qValues self)) self).
Proof.
  intros HA. unfold getValue. rewrite get_self_bind_run.
  rewrite (length_zero_cons _ HA), bind_run.
  by rewrite for_each_getQValue_run.
Qed.

Lemma getPolicy_nil s self :
  getLegalActions self s = [] → getPolicy s self = (None, self).
Proof.
  intros HA. unfold getPolicy. rewrite get_self_bind_run. by rewrite HA.
Qed.

Lemma getPolicy_cons s self :
  getLegalActions self s ≠ [] →
  getPolicy s self =
    (getLegalActions self s
       !! np_argmax (stored (_qValues self) s <$> getLegalActions self s),
     set_qValues (touch_all s (getLegalActions self s) (_qValues self)) self).
Proof.
  intros HA. unfold getPolicy. rewrite get_self_bind_run.
  rewrite (length_zero_cons _ HA), bind_run.
  by rewrite for_each_getQValue_run.
Qed.

Lemma getAction_nil s u k self :
  getLegalActions self s = [] → getAction s u k self = (None, self).
Proof.
  intros HA. unfold getAction. rewrite get_self_bind_run. by rewrite HA.
Qed.

Lemma getAction_explore s u k self :
  getLegalActions self s ≠ [] → Qle_bool (val u) (val (epsilon self)) = true →
  getAction s u k self = (random_choice k (getLegalActions self s), self).
Proof.
  intros HA Hu. unfold getAction. rewrite get_self_bind_run.
  rewrite (length_zero_cons _ HA). cbv zeta. by rewrite Hu.
Qed.

Lemma getAction_exploit s u k self :
  getLegalActions self s ≠ [] → Qle_bool (val u) (val (epsilon self)) = false →
  getAction s u k self = getPolicy s self.
Proof.
  intros HA Hu. unfold getAction. rewrite get_self_bind_run.
  rewrite (length_zero_cons _ HA). cbv zeta. by rewrite Hu.
Qed.

Lemma update_run s a ns r self :
  update s a ns r self =
    setQValue s a
      ((py_int 1 - alpha self) * eval (getQValue s a) (exec (getValue ns) self)
       + alpha self * (r + discount self * eval (getValue ns) self))%num
      (exec (getQValue s a) (exec (getValue ns) self)).
Proof.
  unfold update. rewrite get_self_bind_run. cbv zeta.
  by rewrite !bind_run.
Qed.

(** *** The reads only vivify *)

Lemma only_vivified_refl self : only_vivified self self.
Proof. repeat split. apply vivifies_refl. Qed.

Lemma only_vivified_trans self1 self2 self3 :
  only_vivified self1 self2 → only_vivified self2 self3 →
  only_vivified self1 self3.
Proof.
  intros (? & ? & ? & ? & ?) (? & ? & ? & ? & ?).
  repeat split; try congruence. by eapply vivifies_trans.
Qed.

Lemma only_vivified_set_qValues self q :
  vivifies (_qValues self) q → only_vivified self (set_qValues q self).
Proof. intros Hq. by repeat split. Qed.

Lemma only_vivified_getQValue s a self :
  only_vivified self (exec (getQValue s a) self).
Proof.
  unfold exec. rewrite getQValue_run. simpl.
  apply only_vivified_set_qValues, vivifies_getitem.
Qed.

Lemma only_vivified_getValue s self :
  only_vivified self (exec (getValue s) self).
Proof.
  unfold exec. destruct (decide (getLegalActions self s = [])) as [HA|HA].
  - rewrite getValue_nil by done. apply only_vivified_refl.
  - rewrite getValue_cons by done. simpl.
    apply only_vivified_set_qValues, vivifies_touch_all.
Qed.

Lemma only_vivified_getPolicy s self :
  only_vivified self (exec (getPolicy s) self).
Proof.
  unfold exec. destruct (decide (getLegalActions self s = [])) as [HA|HA].
  - rewrite getPolicy_nil by done. apply only_vivified_refl.
  - rewrite getPolicy_cons by done. simpl.
    apply only_vivified_set_qValues, vivifies_touch_all.
Qed.

Lemma only_vivified_getAction s u k self :
  only_vivified self (exec (getAction s u k) self).
Proof.
  destruct (decide (getLegalActions self s = [])) as [HA|HA].
  - unfold exec. rewrite getAction_nil by done. apply only_vivified_refl.
  - destruct (Qle_bool (val u) (val (epsilon self))) eqn:Hu.
    + unfold exec. rewrite getAction_explore by done.
      apply only_vivified_refl.
    + unfold exec. rewrite getAction_exploit by done.
      apply only_vivified_getPolicy.
Qed.

(** *** What the reads return depends only on the stored numbers *)

Lemma eval_getQValue s a self :
  eval (getQValue s a) self = stored (_qValues self) s a.
Proof. unfold eval. by rewrite getQValue_run. Qed.

Lemma eval_getValue s self :
  eval (getValue s) self =
    if decide (getLegalActions self s = []) then py_float_zero
    else py_max (stored (_qValues self) s <$> getLegalActions self s).
Proof.
  unfold eval. destruct (decide (getLegalActions self s = [])) as [HA|HA].
  - by rewrite getValue_nil.
  - by rewrite getValue_cons.
Qed.

Lemma eval_getPolicy s self :
  eval (getPolicy s) self =
    if decide (getLegalActions self s = []) then None
    else getLegalActions self s
           !! np_argmax (stored (_qValues self) s <$> getLegalActions self s).
Proof.
  unfold eval. destruct (decide (getLegalActions self s = [])) as [HA|HA].
  - by rewrite getPolicy_nil.
  - by rewrite getPolicy_cons.
Qed.

Lemma fmap_stored_vivifies q q' s (actions : list Action) :
  vivifies q q' → stored q' s <$> actions = stored q s <$> actions.
Proof.
  intros Hv. apply list_fmap_ext. intros i a _. by apply vivifies_stored.
Qed.

Lemma only_vivified_eval_getQValue self self' s a :
  only_vivified self self' →
  eval (getQValue s a) self' = eval (getQValue s a) self.
Proof.
  intros (_ & _ & _ & _ & Hv). rewrite !eval_getQValue.
  by apply vivifies_stored.
Qed.

Lemma only_vivified_eval_getValue self self' s :
  only_vivified self self' → eval (getValue s) self' = eval (getValue s) self.
Proof.
  intros (HA & _ & _ & _ & Hv). rewrite !eval_getValue, HA.
  by rewrite (fmap_stored_vivifies _ _ _ _ Hv).
Qed.

Lemma only_vivified_eval_getPolicy self self' s :
  only_vivified self self' →
  eval (getPolicy s) self' = eval (getPolicy s) self.
Proof.
  intros (HA & _ & _ & _ & Hv). rewrite !eval_getPolicy, HA.
  by rewrite (fmap_stored_vivifies _ _ _ _ Hv).
Qed.

(** The store after [update]: a write to the updated pair on top of a store
    that the two reads only vivified. *)
Lemma update_store s a ns r self :
  ∃ q, vivifies (_qValues self) q
       ∧ exec (update s a ns r) self =
           set_qValues
             (qValues_setitem s a
                ((py_int 1 - alpha self) * eval (getQValue s a) self
                 + alpha self
                   * (r + discount self * eval (getValue ns) self))%num
                q)
             self.
Proof.
  pose proof (only_vivified_getValue ns self) as Hv1.
  pose proof (only_vivified_getQValue s a (exec (getValue ns) self)) as Hv2.
  pose proof (only_vivified_trans _ _ _ Hv1 Hv2) as Hv3.
  exists (_qValues (exec (getQValue s a) (exec (getValue ns) self))).
  split; [apply Hv3|].
  unfold exec at 1. rewrite update_run, setQValue_run. simpl.
  rewrite (only_vivified_eval_getQValue _ _ s a Hv1).
  destruct Hv3 as (HA & Hal & Hep & Hdi & _).
  unfold set_qValues. by rewrite HA, Hal, Hep, Hdi.
Qed.

Lemma stored_after_update s a ns r self s' a' :
  stored (_qValues (exec (update s a ns r) self)) s' a' =
    if decide (s' = s ∧ a' = a)
    then ((py_int 1 - alpha self) * eval (getQValue s a) self
          + alpha self * (r + discount self * eval (getValue ns) self))%num
    else stored (_qValues self) s' a'.
Proof.
  destruct (update_store s a ns r self) as (q & Hq & ->). simpl.
  rewrite stored_setitem. case_decide; [done|]. by apply vivifies_stored.
Qed.

Lemma settings_after_update s a ns r self :
  getLegalActions (exec (update s a ns r) self) = getLegalActions self
  ∧ alpha (exec (update s a ns r) self) = alpha self
  ∧ epsilon (exec (update s a ns r) self) = epsilon self
  ∧ discount (exec (update s a ns r) self) = discount self.
Proof. destruct (update_store s a ns r self) as (q & Hq & ->). done. Qed.

Lemma only_vivified_stored self self' s a :
  only_vivified self self' →
  stored (_qValues self') s a = stored (_qValues self) s a.
Proof. intros (_ & _ & _ & _ & Hv). by apply vivifies_stored. Qed.

(** *** Histories *)

Lemma run_calls_app cs1 cs2 self :
  run_calls (cs1 ++ cs2) self = run_calls cs2 (run_calls cs1 self).
Proof. apply fold_left_app. Qed.

Lemma run_call_read c self :
  is_read c = true → only_vivified self (run_call c self).
Proof.
  destruct c; simpl; try done; intros _.
  - apply only_vivified_getQValue.
  - apply only_vivified_getValue.
Qed.

Lemma run_calls_reads cs self :
  Forall (λ c, is_read c = true) cs → only_vivified self (run_calls cs self).
Proof.
  intros Hcs. revert self.
  induction Hcs as [|c cs Hc _ IH]; intros self.
  - apply only_vivified_refl.
  - change (run_calls (c :: cs) self) with (run_calls cs (run_call c self)).
    eapply only_vivified_trans; [by apply run_call_read|apply IH].
Qed.

(** A call that is not a write to the pair leaves the number read for it. *)
Lemma stored_run_call c self s a :
  writes_pair s a c = false →
  stored (_qValues (run_call c self)) s a = stored (_qValues self) s a.
Proof.
  destruct c as [s0 a0|s0 a0 v|s0|s0|s0 u k|s0 a0 ns r|v|v|v]; simpl;
    intros Hw; try done.
  - apply only_vivified_stored, only_vivified_getQValue.
  - rewrite stored_setitem.
    destruct (decide (s = s0 ∧ a = a0)) as [[-> ->]|]; [|done].
    by rewrite !bool_decide_eq_true_2 in Hw.
  - apply only_vivified_stored, only_vivified_getValue.
  - apply only_vivified_stored, only_vivified_getPolicy.
  - apply only_vivified_stored, only_vivified_getAction.
  - rewrite stored_after_update.
    destruct (decide (s = s0 ∧ a = a0)) as [[-> ->]|]; [|done].
    by rewrite !bool_decide_eq_true_2 in Hw.
Qed.

Lemma stored_run_calls cs self s a :
  Forall (λ c, writes_pair s a c = false) cs →
  stored (_qValues (run_calls cs self)) s a = stored (_qValues self) s a.
Proof.
  intros Hcs. revert self.
  induction Hcs as [|c cs Hc _ IH]; intros self; [done|].
  change (run_calls (c :: cs) self) with (run_calls cs (run_call c self)).
  rewrite IH. by apply stored_run_call.
Qed.

End MethodProperties.

(** ** Further properties of the store and the methods *)

Section FurtherLemmas.
Context `{PyNumber}.
Context {State Action : Type}.
Context `{Countable State} `{Countable Action}.
Implicit Types q : gmap State (gmap Action num).
Implicit Types self : QLearningAgent State Action.

(** The entries after the reads of a list comprehension over [actions]. *)
Lemma entry_touch_all s (actions : list Action) q s' a' :
  entry (touch_all s actions q) s' a' =
    if decide (s' = s ∧ a' ∈ actions) then Some (stored q s a')
    else entry q s' a'.
Proof.
  revert q. induction actions as [|a actions IH]; intros q.
  - simpl. rewrite decide_False; [done|].
    intros [_ Hin]. by apply elem_of_nil in Hin.
  - change (touch_all s (a :: actions) q)
      with (touch_all s actions (snd (qValues_getitem s a q))).
    rewrite IH, stored_getitem, entry_getitem.
    destruct (decide (s' = s ∧ a' ∈ actions)) as [[-> Hin]|Hn].
    + rewrite decide_True; [done|]. split; [done|]. by right.
    + destruct (decide (s' = s ∧ a' = a)) as [[-> ->]|Hn'].
      * rewrite decide_True; [done|]. split; [done|]. by left.
      * rewrite decide_False; [done|].
        intros [-> [->|Hin]%elem_of_cons]; [by apply Hn'|by apply Hn].
Qed.

Lemma exec_getValue s self :
  exec (getValue s) self =
    set_qValues (touch_all s (getLegalActions self s) (_qValues self)) self.
Proof.
  unfold exec. destruct (decide (getLegalActions self s = [])) as [HA|HA].
  - rewrite getValue_nil, HA by done. simpl. by rewrite set_qValues_id.
  - by rewrite getValue_cons.
Qed.

Lemma exec_getPolicy s self :
  exec (getPolicy s) self =
    set_qValues (touch_all s (getLegalActions self s) (_qValues self)) self.
Proof.
  unfold exec. destruct (decide (getLegalActions self s = [])) as [HA|HA].
  - rewrite getPolicy_nil, HA by done. simpl. by rewrite set_qValues_id.
  - by rewrite getPolicy_cons.
Qed.

Lemma exec_getQValue s a self :
  exec (getQValue s a) self =
    set_qValues (snd (qValues_getitem s a (_qValues self))) self.
Proof. unfold exec. by rewrite getQValue_run. Qed.

(** A read of a pair that has an entry leaves the dictionaries as they
    are. *)
Lemma getitem_present q s a v :
  entry q s a = Some v → snd (qValues_getitem s a q) = q.
Proof.
  unfold entry, qValues_getitem, dd_getitem.
  destruct (q !! s) as [row|] eqn:Hrow; [|done]. intros Hv. rewrite Hv.
  simpl. by apply insert_id.
Qed.

Lemma stored_fmap_nonempty q s (actions : list Action) :
  actions ≠ [] → stored q s <$> actions ≠ [].
Proof. intros HA Hnil. by apply fmap_nil_inv in Hnil. Qed.

(** In a state with legal actions the policy is one of them. *)
Lemma policy_in_actions s self :
  getLegalActions self s ≠ [] →
  ∃ a, a ∈ getLegalActions self s ∧ eval (getPolicy s) self = Some a.
Proof.
  intros HA. rewrite eval_getPolicy, decide_False by done.
  pose proof (np_argmax_lt _ (stored_fmap_nonempty (_qValues self) s _ HA))
    as Hlt.
  rewrite length_fmap in Hlt.
  destruct (lookup_lt_is_Some_2 _ _ Hlt) as [a Ha].
  exists a. split; [|done]. by eapply list_elem_of_lookup_2.
Qed.


(** When no legal action exceeds the first one in the array, the policy is
    the first action. *)
Lemma policy_head_items s a0 rest self :
  getLegalActions self s = a0 :: rest →
  (∀ a, a ∈ rest →
        (np_item (stored (_qValues self) s <$> a0 :: rest)
           (stored (_qValues self) s a)
         <= np_item (stored (_qValues self) s <$> a0 :: rest)
              (stored (_qValues self) s a0))%Q) →
  eval (getPolicy s) self = Some a0.
Proof.
  intros HA Hle.
  assert (Hne : getLegalActions self s ≠ []) by (by rewrite HA).
  rewrite eval_getPolicy, decide_False by done. rewrite HA.
  assert (np_argmax (stored (_qValues self) s <$> a0 :: rest) = 0) as ->;
    [|done].
  csimpl. apply np_argmax_head_items.
  intros y (a & -> & Ha)%list_elem_of_fmap_1. by apply Hle.
Qed.

(** When no legal action has a greater Q-value than the first one, the
    value of the state is the first action's Q-value. *)
Lemma value_head s a0 rest self :
  getLegalActions self s = a0 :: rest →
  (∀ a, a ∈ rest →
        (val (stored (_qValues self) s a)
         <= val (stored (_qValues self) s a0))%Q) →
  eval (getValue s) self = stored (_qValues self) s a0.
Proof.
  intros HA Hle.
  assert (Hne : getLegalActions self s ≠ []) by (by rewrite HA).
  rewrite eval_getValue, decide_False by done. rewrite HA. csimpl.
  apply py_max_head.
  intros y (a & -> & Ha)%list_elem_of_fmap_1. by apply Hle.
Qed.

(** What [getValue] and [getPolicy] return depends on the store only through
    the Q-values of the legal actions of the state. *)
Lemma greedy_reads_agree s self self' :
  getLegalActions self' s = getLegalActions self s →
  (∀ a, a ∈ getLegalActions self s →
        stored (_qValues self') s a = stored (_qValues self) s a) →
  eval (getValue s) self' = eval (getValue s) self
  ∧ eval (getPolicy s) self' = eval (getPolicy s) self.
Proof.
  intros HA Hq. rewrite !eval_getValue, !eval_getPolicy, HA.
  assert (stored (_qValues self') s <$> getLegalActions self s
          = stored (_qValues self) s <$> getLegalActions self s) as ->; [|done].
  apply list_fmap_ext. intros i a Ha. apply Hq.
  by eapply list_elem_of_lookup_2.
Qed.

(** [update(s, a, ...)] changes the greedy reads of a state only if the
    state is [s] and [a] is legal there. *)
Lemma greedy_reads_after_update s a ns r self s' :
  ¬ (s' = s ∧ a ∈ getLegalActions self s') →
  eval (getValue s') (exec (update s a ns r) self) = eval (getValue s') self
  ∧ eval (getPolicy s') (exec (update s a ns r) self)
    = eval (getPolicy s') self.
Proof.
  intros Hn. apply greedy_reads_agree.
  - by destruct (settings_after_update s a ns r self) as (-> & _).
  - intros a' Ha'. rewrite stored_after_update, decide_False; [done|].
    intros [-> ->]. by apply Hn.
Qed.

End FurtherLemmas.

Section FurtherStoreLemmas.
Context `{PyNumber}.
Context {State Action : Type}.
Context `{Countable State} `{Countable Action}.
Implicit Types q : gmap State (gmap Action num).
Implicit Types self : QLearningAgent State Action.

(** The rows after [self._qValues[s][a] = v]. *)
Lemma lookup_setitem q s a v s' :
  qValues_setitem s a v q !! s' =
    if decide (s' = s) then Some (<[a := v]> (default ∅ (q !! s)))
    else q !! s'.
Proof.
  unfold qValues_setitem, dd_getitem.
  destruct (q !! s) as [row|] eqn:Hrow; simpl;
    destruct (decide (s' = s)) as [->|?]; by simplify_map_eq.
Qed.

(** The rows after the read [self._qValues[s][a]]. *)
Lemma lookup_getitem q s a s' :
  snd (qValues_getitem s a q) !! s' =
    if decide (s' = s)
    then Some (<[a := stored q s a]> (default ∅ (q !! s)))
    else q !! s'.
Proof.
  unfold qValues_getitem, dd_getitem, stored, entry.
  destruct (q !! s) as [row|] eqn:Hrow; simpl.
  - destruct (row !! a) as [v|] eqn:Hv; simpl;
      destruct (decide (s' = s)) as [->|?]; simplify_map_eq; try done.
    by rewrite insert_id.
  - rewrite lookup_empty. simpl.
    destruct (decide (s' = s)) as [->|?]; by simplify_map_eq.
Qed.

(** The read that [update] makes before its write leaves no trace. *)
Lemma setitem_after_getitem q s a v :
  qValues_setitem s a v (snd (qValues_getitem s a q))
    = qValues_setitem s a v q.
Proof.
  apply map_eq. intros s'. rewrite !lookup_setitem, !lookup_getitem.
  destruct (decide (s' = s)) as [->|?]; [|done].
  rewrite decide_True by done. simpl. by rewrite insert_insert_eq.
Qed.

Lemma setitem_setitem q s a v1 v2 :
  qValues_setitem s a v2 (qValues_setitem s a v1 q)
    = qValues_setitem s a v2 q.
Proof.
  apply map_eq. intros s'. rewrite !lookup_setitem.
  destruct (decide (s' = s)) as [->|?]; [|done].
  rewrite decide_True by done. simpl. by rewrite insert_insert_eq.
Qed.

Lemma setitem_commute q s1 a1 v1 s2 a2 v2 :
  (s1, a1) ≠ (s2, a2) →
  qValues_setitem s1 a1 v1 (qValues_setitem s2 a2 v2 q)
    = qValues_setitem s2 a2 v2 (qValues_setitem s1 a1 v1 q).
Proof.
  intros Hne. apply map_eq. intros s'. rewrite !lookup_setitem.
  destruct (decide (s' = s1)) as [Hs1|Hs1];
    destruct (decide (s' = s2)) as [Hs2|Hs2]; simplify_eq;
    repeat (rewrite decide_True by done);
    repeat (rewrite decide_False by done); simpl; try done.
  f_equal. apply insert_insert_ne. intros ->. by apply Hne.
Qed.

Lemma getitem_getitem q s a :
  snd (qValues_getitem s a (snd (qValues_getitem s a q)))
    = snd (qValues_getitem s a q).
Proof.
  apply (getitem_present _ _ _ (stored q s a)).
  rewrite entry_getitem. by rewrite decide_True.
Qed.

Lemma vivifies_is_Some q q' s a :
  vivifies q q' → is_Some (entry q s a) → is_Some (entry q' s a).
Proof. intros Hv Hs. destruct (Hv s a) as [->|[_ ->]]; [done|by eexists]. Qed.

Lemma setitem_is_Some q s a v s' a' :
  is_Some (entry q s' a') →
  is_Some (entry (qValues_setitem s a v q) s' a').
Proof. intros Hs. rewrite entry_setitem. case_decide; [by eexists|done]. Qed.

Lemma run_call_is_Some (c : call State Action) self s a :
  is_Some (entry (_qValues self) s a) →
  is_Some (entry (_qValues (run_call c self)) s a).
Proof.
  intros Hs.
  destruct c as [s0 a0|s0 a0 v|s0|s0|s0 u k|s0 a0 ns r|v|v|v]; simpl;
    try done.
  - eapply vivifies_is_Some; [|done]. apply only_vivified_getQValue.
  - by apply setitem_is_Some.
  - eapply vivifies_is_Some; [|done]. apply only_vivified_getValue.
  - eapply vivifies_is_Some; [|done]. apply only_vivified_getPolicy.
  - eapply vivifies_is_Some; [|done]. apply only_vivified_getAction.
  - destruct (update_store s0 a0 ns r self) as (q & Hq & ->). simpl.
    apply setitem_is_Some. by eapply vivifies_is_Some.
Qed.

Lemma run_call_settings (c : call State Action) self :
  is_assignment c = false →
  getLegalActions (run_call c self) = getLegalActions self
  ∧ alpha (run_call c self) = alpha self
  ∧ epsilon (run_call c self) = epsilon self
  ∧ discount (run_call c self) = discount self.
Proof.
  destruct c as [s0 a0|s0 a0 v|s0|s0|s0 u k|s0 a0 ns r|v|v|v]; simpl;
    intros Hc; try done.
  - by destruct (only_vivified_getQValue s0 a0 self) as (? & ? & ? & ? & _).
  - by destruct (only_vivified_getValue s0 self) as (? & ? & ? & ? & _).
  - by destruct (only_vivified_getPolicy s0 self) as (? & ? & ? & ? & _).
  - by destruct (only_vivified_getAction s0 u k self) as (? & ? & ? & ? & _).
  - apply settings_after_update.
Qed.

Lemma run_call_oracle (c : call State Action) self :
  getLegalActions (run_call c self) = getLegalActions self.
Proof.
  destruct (is_assignment c) eqn:Hc.
  - by destruct c.
  - by destruct (run_call_settings c self Hc) as (? & _).
Qed.

Lemma run_calls_oracle (cs : list (call State Action)) self :
  getLegalActions (run_calls cs self) = getLegalActions self.
Proof.
  revert self. induction cs as [|c cs IH]; intros self; [done|].
  change (run_calls (c :: cs) self) with (run_calls cs (run_call c self)).
  by rewrite IH, run_call_oracle.
Qed.

End FurtherStoreLemmas.
(** ** The specification of the agent *)

Section Specification.
Context `{PyNumber}.
Context {State Action : Type}.
Context `{Countable State} `{Countable Action}.
Implicit Types q : gmap State (gmap Action num).
Implicit Types self : QLearningAgent State Action.

(** The entry and the Q-value that [update] leaves at the updated pair. *)
Lemma entry_after_update s a ns r self :
  entry (_qValues (exec (update s a ns r) self)) s a =
    Some ((py_int 1 - alpha self) * eval (getQValue s a) self
          + alpha self * (r + discount self * eval (getValue ns) self))%num.
Proof.
  destruct (update_store s a ns r self) as (q & _ & ->). simpl.
  rewrite entry_setitem. by rewrite decide_True.
Qed.

Lemma getQValue_after_update s a ns r self :
  eval (getQValue s a) (exec (update s a ns r) self) =
    ((py_int 1 - alpha self) * eval (getQValue s a) self
     + alpha self * (r + discount self * eval (getValue ns) self))%num.
Proof.
  rewrite (eval_getQValue s a (exec _ _)), stored_after_update.
  by rewrite decide_True.
Qed.

(** The value of a state with a single legal action is that action's
    Q-value. *)
Lemma getValue_single s b self :
  getLegalActions self s = [b] →
  eval (getValue s) self = eval (getQValue s b) self.
Proof.
  intros HA. rewrite eval_getValue, eval_getQValue, HA.
  by rewrite decide_False.
Qed.


(** C7: [setQValue(s, a, v)] followed by [getQValue(s, a)] returns exactly
    [v], whether or not the pair had an entry. *)
Theorem setQValue_getQValue s a v self :
  eval (getQValue s a) (exec (setQValue s a v) self) = v.
Proof.
  rewrite eval_getQValue. unfold exec. rewrite setQValue_run. simpl.
  rewrite stored_setitem. by rewrite decide_True.
Qed.

(** C10: after [update(s, a, nextState, reward)], [getQValue(s', a')] for
    every pair other than [(s, a)] returns what it returned before. *)
Theorem update_frame s a ns r self s' a' :
  (s', a') ≠ (s, a) →
  eval (getQValue s' a') (exec (update s a ns r) self)
    = eval (getQValue s' a') self.
Proof.
  intros Hne. rewrite !eval_getQValue, stored_after_update.
  rewrite decide_False; [done|]. intros [-> ->]. by apply Hne.
Qed.

(** C6: a pair on which neither [setQValue] nor [update] was ever called
    reads as 0 (the int that the store's factory gives, equal to 0.0),
    whatever else the driver did since construction. *)
Theorem unwritten_pair_reads_zero al ep di (oracle : State → list Action)
    (cs : list (call State Action)) (s : State) (a : Action) :
  Forall (λ c, writes_pair s a c = false) cs →
  eval (getQValue s a) (run_calls cs (__init__ al ep di oracle)) = py_int 0.
Proof.
  intros Hcs. rewrite eval_getQValue, stored_run_calls by done.
  unfold stored, entry. simpl. by rewrite lookup_empty.
Qed.


(** C4, as the code has it: with epsilon = 0, in a state with at least one
    legal action and for every outcome [u > 0] of the uniform draw,
    [getAction(s)] is [getPolicy(s)], in its result and in what it leaves in
    the store, and a further such call returns the same action.  The
    outcome [u = 0] passes the test [u <= epsilon] and explores. *)
Theorem getAction_exploits_when_epsilon_zero s u k self :
  (val (epsilon self) == 0)%Q →
  getLegalActions self s ≠ [] →
  (0 < val u)%Q →
  getAction s u k self = getPolicy s self
  ∧ ∀ u' k', (0 < val u')%Q →
      eval (getAction s u' k') (exec (getAction s u k) self)
        = eval (getPolicy s) self.
Proof.
  intros Hep HA Hu.
  assert (Hexploit : ∀ v self',
            (0 < val v)%Q → (val (epsilon self') == 0)%Q →
            Qle_bool (val v) (val (epsilon self')) = false).
  { intros v self' Hv Hep'.
    destruct (Qle_bool (val v) (val (epsilon self'))) eqn:E; [|done].
    apply Qle_bool_iff in E. lra. }
  split; [by apply getAction_exploit; auto|].
  intros u' k' Hu'.
  pose proof (only_vivified_getAction s u k self) as Hviv.
  pose proof Hviv as (HA' & _ & Hep' & _).
  unfold eval at 1. rewrite getAction_exploit.
  - by apply only_vivified_eval_getPolicy.
  - by rewrite HA'.
  - apply Hexploit; [done|]. by rewrite Hep'.
Qed.

(** C8: when the oracle gives no action for [s], [getValue(s)] is 0.0 and
    [getPolicy(s)] and [getAction(s)] return [None]; when it gives some,
    both return one of the given actions and [getValue(s)] is the Q-value
    of one of them.  [None] is returned in no other case. *)
Theorem no_legal_actions_sentinel s u k self :
  (getLegalActions self s = [] →
     eval (getValue s) self = py_float_zero
     ∧ eval (getPolicy s) self = None
     ∧ eval (getAction s u k) self = None)
  ∧ (getLegalActions self s ≠ [] →
     (∃ a, a ∈ getLegalActions self s ∧ eval (getPolicy s) self = Some a)
     ∧ (k < length (getLegalActions self s) →
        ∃ a, a ∈ getLegalActions self s
             ∧ eval (getAction s u k) self = Some a)
     ∧ (∃ a, a ∈ getLegalActions self s
             ∧ eval (getValue s) self = eval (getQValue s a) self)).
Proof.
  split; intros HA.
  - unfold eval.
    by rewrite getValue_nil, getPolicy_nil, getAction_nil by done.
  - assert (Hpol : ∃ a, a ∈ getLegalActions self s
                        ∧ eval (getPolicy s) self = Some a)
      by (by apply policy_in_actions).
    split; [done|]. split.
    + intros Hk. destruct (Qle_bool (val u) (val (epsilon self))) eqn:Hu.
      * unfold eval. rewrite getAction_explore by done. simpl.
        destruct (lookup_lt_is_Some_2 _ _ Hk) as [a Ha].
        exists a. split; [|done]. by eapply list_elem_of_lookup_2.
      * unfold eval at 1. by rewrite getAction_exploit.
    + rewrite eval_getValue, decide_False by done.
      assert (stored (_qValues self) s <$> getLegalActions self s ≠ [])
        as Hqs by (intros Hnil; by apply fmap_nil_inv in Hnil).
      destruct (list_elem_of_fmap_1 _ _ _ (py_max_elem _ Hqs))
        as (a & Heq & Ha).
      exists a. split; [done|]. by rewrite eval_getQValue.
Qed.

(** C9: [update] and [getAction] use the values the fields [alpha],
    [epsilon] and [discount] hold when the call is made: after the three
    fields are reassigned, the update is the one computed with the new
    [alpha] and [discount], and the exploration test is made against the
    new [epsilon]. *)
Theorem hyperparameters_read_at_call_time al ep di s a ns r u k self :
  let self' := set_discount di (set_epsilon ep (set_alpha al self)) in
  eval (getQValue s a) (exec (update s a ns r) self')
    = ((py_int 1 - al) * eval (getQValue s a) self
       + al * (r + di * eval (getValue ns) self))%num
  ∧ eval (getAction s u k) self'
    = if decide (getLegalActions self s = []) then None
      else if Qle_bool (val u) (val ep)
           then random_choice k (getLegalActions self s)
      else eval (getPolicy s) self.
Proof.
  intros self'. split.
  - rewrite (eval_getQValue s a (exec _ _)), stored_after_update.
    rewrite decide_True by done.
    rewrite !eval_getQValue, !eval_getValue. reflexivity.
  - destruct (decide (getLegalActions self s = [])) as [HA|HA].
    + unfold eval. by rewrite getAction_nil.
    + destruct (Qle_bool (val u) (val ep)) eqn:Hu.
      * unfold eval. by rewrite getAction_explore.
      * unfold eval at 1. rewrite getAction_exploit by done.
        fold (eval (getPolicy s) self'). rewrite !eval_getPolicy.
        reflexivity.
Qed.

(** C5, as the code has it: any number of [getQValue] and [getValue] calls
    keeps every entry of the store with its value, adds only entries that
    hold 0, and changes no value that [getQValue] or [getValue] returns. *)
Theorem reads_only_vivify (cs : list (call State Action)) self :
  Forall (λ c, is_read c = true) cs →
  (∀ s a v, entry (_qValues self) s a = Some v →
            entry (_qValues (run_calls cs self)) s a = Some v)
  ∧ (∀ s a v, entry (_qValues (run_calls cs self)) s a = Some v →
              entry (_qValues self) s a = Some v
              ∨ (entry (_qValues self) s a = None ∧ v = py_int 0))
  ∧ (∀ s a, eval (getQValue s a) (run_calls cs self)
            = eval (getQValue s a) self)
  ∧ (∀ s, eval (getValue s) (run_calls cs self) = eval (getValue s) self).
Proof.
  intros Hcs. pose proof (run_calls_reads cs self Hcs) as Hviv.
  pose proof Hviv as (_ & _ & _ & _ & Hq).
  split; [|split; [|split]].
  - intros s a v Hv. destruct (Hq s a) as [->|[Hn _]]; congruence.
  - intros s a v Hv. destruct (Hq s a) as [Heq|[Hn Hz]].
    + left. congruence.
    + right. split; congruence.
  - intros s a. by apply only_vivified_eval_getQValue.
  - intros s. by apply only_vivified_eval_getValue.
Qed.

End Specification.


(** ** The update rule, for every arithmetic and for Python's *)

Section UpdateRule.
Context {State Action : Type}.
Context `{Countable State} `{Countable Action}.

(** C1: [update(state, action, nextState, reward)] leaves at
    [(state, action)] the entry
    [(1 - alpha) * getQValue(state, action)
       + alpha * (reward + discount * getValue(nextState))],
    both reads taken on the agent as it is before the call, whatever the
    arithmetic of the numbers is.  In particular, in Python's arithmetic,
    with the floats alpha = 0.5 and discount = 0.9, a prior Q-value of 0, a
    next state whose only legal action [b] has Q-value 10, and reward 5
    (each of the three an int or a float), the value read back after the
    update is the float 7.0. *)
Theorem update_stores_td_value :
  (∀ (Num : PyNumber) (s : State) (a : Action) (ns : State) (r : num)
     (self : QLearningAgent State Action),
      entry (_qValues (exec (update s a ns r) self)) s a =
        Some ((py_int 1 - alpha self) * eval (getQValue s a) self
              + alpha self
                * (r + discount self * eval (getValue ns) self))%num)
  ∧ (∀ (s : State) (a : Action) (ns : State) (b : Action) (r : pynum)
       (self : @QLearningAgent python State Action _ _ _ _),
      alpha self = PyFloat float_0_5 →
      discount self = PyFloat float_0_9 →
      py_is 0 (eval (getQValue s a) self) →
      getLegalActions self ns = [b] →
      py_is 10 (eval (getQValue ns b) self) →
      py_is 5 r →
      eval (getQValue s a) (exec (update s a ns r) self) = PyFloat 7).
Proof.
  split.
  - intros Num s a ns r self. apply entry_after_update.
  - intros s a ns b r self Hal Hdi Hq Hns Hb Hr.
    rewrite getQValue_after_update, (getValue_single ns b self Hns).
    rewrite Hal, Hdi.
    destruct Hq as [-> | ->], Hb as [-> | ->], Hr as [-> | ->];
      vm_compute; reflexivity.
Qed.

End UpdateRule.

(** ** The statements at the demo agent *)

(** The worked example of the update rule, 0.5 * 0 + 0.5 * (5 + 0.9 * 10) in
    binary64 arithmetic. *)
Lemma update_stores_td_value_demo :
  eval (getQValue "s" "a")
    (exec (update "s" "a" "next" (PyInt 5)) demo_agent) = PyFloat 7.
Proof.
  exact (proj2 update_stores_td_value "s" "a" "next" "b" (PyInt 5)
           demo_agent eq_refl eq_refl (or_introl eq_refl) eq_refl
           (or_introl eq_refl) (or_introl eq_refl)).
Defined.




Lemma getAction_exploits_when_epsilon_zero_demo :
  (val (epsilon demo_tie) == 0)%Q
  ∧ getLegalActions demo_tie "s" ≠ []
  ∧ (0 < val (PyFloat float_0_5))%Q
  ∧ getAction "s" (PyFloat float_0_5) 0 demo_tie = getPolicy "s" demo_tie
  ∧ ∀ u' k', (0 < val u')%Q →
      eval (getAction "s" u' k')
        (exec (getAction "s" (PyFloat float_0_5) 0) demo_tie)
        = eval (getPolicy "s") demo_tie.
Proof.
  assert (Hep : (val (epsilon demo_tie) == 0)%Q) by (vm_compute; reflexivity).
  assert (Hne : getLegalActions demo_tie "s" ≠ []) by discriminate.
  assert (Hu : (0 < val (PyFloat float_0_5))%Q) by (vm_compute; reflexivity).
  split; [exact Hep|]. split; [exact Hne|]. split; [exact Hu|].
  exact (getAction_exploits_when_epsilon_zero "s" (PyFloat float_0_5) 0
           demo_tie Hep Hne Hu).
Defined.

(** C4 fails at the outcome [u = 0.0]: with epsilon = 0.0 the test
    [u <= epsilon] holds, so [getAction] returns the action that
    [random.choice] draws, here [a] at index 0, while [getPolicy] returns
    [x]. *)
Lemma getAction_explores_at_zero_draw :
  (val (epsilon demo_tie) == 0)%Q
  ∧ getLegalActions demo_tie "s" = ["a"; "x"; "y"]
  ∧ (0 <= val (PyFloat 0))%Q ∧ (val (PyFloat 0) < 1)%Q
  ∧ eval (getAction "s" (PyFloat 0) 0) demo_tie = Some "a"
  ∧ eval (getPolicy "s") demo_tie = Some "x"
  ∧ eval (getAction "s" (PyFloat 0) 0) demo_tie
    ≠ eval (getPolicy "s") demo_tie.
Proof.
  split; [vm_compute; reflexivity|]. split; [reflexivity|].
  split; [vm_compute; discriminate|]. split; [vm_compute; reflexivity|].
  split; [vm_compute; reflexivity|]. split; [vm_compute; reflexivity|].
  vm_compute. discriminate.
Qed.

(** C5 fails on a fresh agent: one [getQValue], or one [getValue], leaves
    entries in a store that had none. *)
Lemma reads_create_entries :
  _qValues demo_fresh = ∅
  ∧ entry (_qValues demo_fresh) "s" "a" = None
  ∧ entry (_qValues (exec (getQValue "s" "a") demo_fresh)) "s" "a"
    = Some (PyInt 0)
  ∧ entry (_qValues (exec (getValue "s") demo_fresh)) "s" "y"
    = Some (PyInt 0)
  ∧ _qValues (exec (getQValue "s" "a") demo_fresh) ≠ _qValues demo_fresh
  ∧ _qValues (exec (getValue "s") demo_fresh) ≠ _qValues demo_fresh.
Proof.
  split; [reflexivity|]. split; [reflexivity|].
  split; [reflexivity|]. split; [reflexivity|].
  split; intros Heq.
  - assert (entry (_qValues (exec (getQValue "s" "a") demo_fresh)) "s" "a"
            = entry (_qValues demo_fresh) "s" "a") as Hent
      by (by rewrite Heq).
    discriminate Hent.
  - assert (entry (_qValues (exec (getValue "s") demo_fresh)) "s" "y"
            = entry (_qValues demo_fresh) "s" "y") as Hent
      by (by rewrite Heq).
    discriminate Hent.
Qed.

Lemma reads_only_vivify_demo :
  Forall (λ c, is_read c = true)
    [CallGetQValue "s" "a"; CallGetValue "next"; CallGetQValue "end" "z"]
  ∧ (∀ s a v, entry (_qValues demo_agent) s a = Some v →
       entry
         (_qValues
            (run_calls
               [CallGetQValue "s" "a"; CallGetValue "next";
                CallGetQValue "end" "z"] demo_agent)) s a = Some v)
  ∧ (∀ s a,
       eval (getQValue s a)
         (run_calls
            [CallGetQValue "s" "a"; CallGetValue "next";
             CallGetQValue "end" "z"] demo_agent)
       = eval (getQValue s a) demo_agent).
Proof.
  assert (Hreads : Forall (λ c : call string string, is_read c = true)
            [CallGetQValue "s" "a"; CallGetValue "next";
             CallGetQValue "end" "z"])
    by (repeat constructor).
  pose proof (reads_only_vivify _ demo_agent Hreads) as (Hkeep & _ & Hq & _).
  split; [exact Hreads|]. split; [exact Hkeep|exact Hq].
Defined.

Lemma unwritten_pair_reads_zero_demo :
  Forall (λ c, writes_pair "s" "a" c = false)
    [CallSetQValue "next" "b" (PyInt 10); CallGetValue "s";
     CallUpdate "s" "x" "next" (PyInt 5); AssignEpsilon (PyFloat float_0_5);
     CallGetAction "s" (PyFloat float_0_9) 0]
  ∧ eval (getQValue "s" "a")
      (run_calls
         [CallSetQValue "next" "b" (PyInt 10); CallGetValue "s";
          CallUpdate "s" "x" "next" (PyInt 5);
          AssignEpsilon (PyFloat float_0_5);
          CallGetAction "s" (PyFloat float_0_9) 0]
         (__init__ (PyFloat float_0_5) (PyFloat 0) (PyFloat float_0_9)
            demo_actions))
    = PyInt 0.
Proof.
  assert (Hcs : Forall (λ c : call string string,
                          writes_pair "s" "a" c = false)
            [CallSetQValue "next" "b" (PyInt 10); CallGetValue "s";
             CallUpdate "s" "x" "next" (PyInt 5);
             AssignEpsilon (PyFloat float_0_5);
             CallGetAction "s" (PyFloat float_0_9) 0])
    by (repeat constructor).
  split; [exact Hcs|].
  exact (unwritten_pair_reads_zero (PyFloat float_0_5) (PyFloat 0)
           (PyFloat float_0_9) demo_actions _ "s" "a" Hcs).
Defined.

Lemma no_legal_actions_sentinel_demo :
  (eval (getValue "end") demo_tie = PyFloat 0
   ∧ eval (getPolicy "end") demo_tie = None
   ∧ eval (getAction "end" (PyFloat float_0_5) 1) demo_tie = None)
  ∧ (∃ a, a ∈ getLegalActions demo_tie "s"
          ∧ eval (getPolicy "s") demo_tie = Some a).
Proof.
  assert (Hnil : getLegalActions demo_tie "end" = []) by reflexivity.
  assert (Hne : getLegalActions demo_tie "s" ≠ []) by discriminate.
  split.
  - exact (proj1 (no_legal_actions_sentinel "end" (PyFloat float_0_5) 1
                    demo_tie) Hnil).
  - exact (proj1
             (proj2 (no_legal_actions_sentinel "s" (PyFloat float_0_5) 1
                       demo_tie) Hne)).
Defined.

Lemma update_frame_demo :
  ("next", "b") ≠ ("s", "a")
  ∧ eval (getQValue "next" "b")
      (exec (update "s" "a" "next" (PyInt 5)) demo_agent)
    = eval (getQValue "next" "b") demo_agent.
Proof.
  assert (Hne : ("next", "b") ≠ ("s", "a")) by discriminate.
  split; [exact Hne|].
  exact (update_frame "s" "a" "next" (PyInt 5) demo_agent "next" "b" Hne).
Defined.

(** ** Evaluations at the demo agent *)

(** All defaults tie at 0: the value is 0 and the policy is the first
    action. *)
Example fresh_policy_is_first_action :
  eval (getValue "s") demo_fresh = PyInt 0
  ∧ eval (getPolicy "s") demo_fresh = Some "a".
Proof. split; vm_compute; reflexivity. Qed.

(** [x] and [y] tie at the maximum; the policy is [x], also when asked
    again. *)
Example tie_goes_to_first_maximum :
  eval (getPolicy "s") demo_tie = Some "x"
  ∧ eval (getPolicy "s") (exec (getPolicy "s") demo_tie) = Some "x".
Proof. split; vm_compute; reflexivity. Qed.

(** An external decay schedule: after [agent.epsilon = 1.0] the same draw
    explores, where it exploited before. *)
Example epsilon_reassigned :
  eval (getAction "s" (PyFloat float_0_5) 2) demo_tie = Some "x"
  ∧ eval (getAction "s" (PyFloat float_0_5) 2)
      (set_epsilon (PyFloat 1) demo_tie) = Some "y".
Proof. split; vm_compute; reflexivity. Qed.

(** The update of the worked example leaves the entry 7.0 and the entry of
    the next state in place. *)
Example update_demo_entries :
  entry (_qValues (exec (update "s" "a" "next" (PyInt 5)) demo_agent))
    "s" "a" = Some (PyFloat 7)
  ∧ entry (_qValues (exec (update "s" "a" "next" (PyInt 5)) demo_agent))
      "next" "b" = Some (PyInt 10).
Proof. split; vm_compute; reflexivity. Qed.

(** The update rounds as binary64 does: with alpha = 0.1, discount = 0.9,
    a Q-value and a reward of 0.3 and a next state without actions, old
    value and target are both 0.3 and the new value is greater. *)
Example update_rounds :
  (val (PyFloat (3 / 10))
   < val (eval (getQValue "s" "a")
            (exec (update "s" "a" "end" (PyFloat (3 / 10)))
               (exec (setQValue "s" "a" (PyFloat (3 / 10)))
                  (__init__ (PyFloat (1 / 10)) (PyFloat 0)
                     (PyFloat float_0_9) demo_actions)))))%Q.
Proof. vm_compute. reflexivity. Qed.

(** ** Further properties of the agent *)

Section FurtherProperties.
Context `{PyNumber}.
Context {State Action : Type}.
Context `{Countable State} `{Countable Action}.
Implicit Types q : gmap State (gmap Action num).
Implicit Types self : QLearningAgent State Action.

(** X1: no method assigns to [getLegalActions], [alpha], [epsilon] or
    [discount]; a method call leaves the four fields as they were. *)
Theorem methods_keep_settings (c : call State Action) self :
  is_assignment c = false →
  getLegalActions (run_call c self) = getLegalActions self
  ∧ alpha (run_call c self) = alpha self
  ∧ epsilon (run_call c self) = epsilon self
  ∧ discount (run_call c self) = discount self.
Proof. apply run_call_settings. Qed.

(** X2: the store never loses an entry: a pair that has an entry keeps one
    through every history of method calls and assignments. *)
Theorem store_never_forgets (cs : list (call State Action)) self s a :
  is_Some (entry (_qValues self) s a) →
  is_Some (entry (_qValues (run_calls cs self)) s a).
Proof.
  revert self. induction cs as [|c cs IH]; intros self Hs; [done|].
  change (run_calls (c :: cs) self) with (run_calls cs (run_call c self)).
  by apply IH, run_call_is_Some.
Qed.

(** X3: [getValue(s)] leaves an entry for every legal action of [s],
    holding the Q-value read, and no other new entry; [getPolicy(s)] leaves
    the agent in the same state as [getValue(s)]. *)
Theorem greedy_reads_materialise_legal_pairs s self s' a' :
  entry (_qValues (exec (getValue s) self)) s' a' =
    (if decide (s' = s ∧ a' ∈ getLegalActions self s)
     then Some (eval (getQValue s a') self)
     else entry (_qValues self) s' a')
  ∧ exec (getPolicy s) self = exec (getValue s) self.
Proof.
  split.
  - rewrite exec_getValue, eval_getQValue. simpl. apply entry_touch_all.
  - by rewrite exec_getPolicy, exec_getValue.
Qed.

(** X4: [getQValue(s, a)] creates at most the entry of [(s, a)]; a second
    read of the pair returns the same value and changes nothing. *)
Theorem getQValue_second_read s a self :
  getQValue s a (exec (getQValue s a) self)
    = (eval (getQValue s a) self, exec (getQValue s a) self)
  ∧ ∀ s' a', (s', a') ≠ (s, a) →
      entry (_qValues (exec (getQValue s a) self)) s' a'
        = entry (_qValues self) s' a'.
Proof.
  split.
  - rewrite getQValue_run, exec_getQValue, eval_getQValue. simpl.
    by rewrite stored_getitem, getitem_getitem.
  - intros s' a' Hne. rewrite exec_getQValue. simpl.
    rewrite entry_getitem, decide_False; [done|].
    intros [-> ->]. by apply Hne.
Qed.

(** X5: with [epsilon >= 1] every draw [u < 1] explores: [getAction]
    returns the action that [random.choice] draws, reads no Q-value and
    leaves the agent unchanged. *)
Theorem getAction_explores_when_epsilon_one s u k self :
  (1 <= val (epsilon self))%Q →
  (val u < 1)%Q →
  getLegalActions self s ≠ [] →
  k < length (getLegalActions self s) →
  getAction s u k self = (getLegalActions self s !! k, self)
  ∧ ∃ a, a ∈ getLegalActions self s
         ∧ eval (getAction s u k) self = Some a.
Proof.
  intros Hep Hu HA Hk.
  assert (Hle : Qle_bool (val u) (val (epsilon self)) = true)
    by (apply Qle_bool_iff; lra).
  unfold eval. rewrite getAction_explore by done. split; [done|].
  destruct (lookup_lt_is_Some_2 _ _ Hk) as [a Ha].
  exists a. split; [by eapply list_elem_of_lookup_2|done].
Qed.



(** X8: in a state none of whose legal pairs was written since
    construction, the value is 0 and the policy is the first legal action,
    whatever else the driver did. *)
Theorem unwritten_state_policy_is_first_action al ep di
    (oracle : State → list Action) (cs : list (call State Action))
    (s : State) (a0 : Action) (rest : list Action) :
  oracle s = a0 :: rest →
  (∀ a, a ∈ a0 :: rest → Forall (λ c, writes_pair s a c = false) cs) →
  eval (getValue s) (run_calls cs (__init__ al ep di oracle)) = py_int 0
  ∧ eval (getPolicy s) (run_calls cs (__init__ al ep di oracle)) = Some a0.
Proof.
  intros HA Hcs.
  assert (Hzero : ∀ a, a ∈ a0 :: rest →
            stored (_qValues (run_calls cs (__init__ al ep di oracle))) s a
              = py_int 0).
  { intros a Ha. rewrite stored_run_calls by auto.
    unfold stored, entry. simpl. by rewrite lookup_empty. }
  assert (HA' : getLegalActions (run_calls cs (__init__ al ep di oracle)) s
                = a0 :: rest) by (by rewrite run_calls_oracle).
  split.
  - rewrite (value_head s a0 rest); [apply Hzero; by left|done|].
    intros a Ha. rewrite !Hzero; [apply Qle_refl|by left|by right].
  - apply (policy_head_items s a0 rest); [done|]. intros a Ha.
    rewrite !Hzero; [apply Qle_refl|by left|by right].
Qed.

End FurtherProperties.

(** ** Further properties of the learner *)

Section LearnerProperties.
Context `{PyNumber}.
Context {State Action : Type}.
Context `{Countable State} `{Countable Action}.
Implicit Types q : gmap State (gmap Action num).
Implicit Types self : QLearningAgent State Action.

(** X11: [update] is [getValue(nextState)] followed by one [setQValue] of
    the new value: its own read of [(state, action)] leaves no trace.  When
    [nextState] has no legal action, the whole update is that one
    [setQValue], with target [reward + discount * 0.0]. *)
Theorem update_is_read_then_write s a ns r self :
  exec (update s a ns r) self =
    exec
      (setQValue s a
         ((py_int 1 - alpha self) * eval (getQValue s a) self
          + alpha self * (r + discount self * eval (getValue ns) self))%num)
      (exec (getValue ns) self)
  ∧ (getLegalActions self ns = [] →
     exec (update s a ns r) self =
       exec
         (setQValue s a
            ((py_int 1 - alpha self) * eval (getQValue s a) self
             + alpha self * (r + discount self * py_float_zero))%num)
         self).
Proof.
  assert (Hgen : exec (update s a ns r) self =
    exec
      (setQValue s a
         ((py_int 1 - alpha self) * eval (getQValue s a) self
          + alpha self * (r + discount self * eval (getValue ns) self))%num)
      (exec (getValue ns) self)).
  { unfold exec at 1. rewrite update_run.
    rewrite (only_vivified_eval_getQValue _ _ s a
               (only_vivified_getValue ns self)).
    unfold exec at 1 3. rewrite !setQValue_run. simpl.
    rewrite getQValue_run. unfold set_qValues. simpl.
    by rewrite setitem_after_getitem. }
  split; [done|]. intros HA. rewrite Hgen.
  unfold exec at 2, eval at 2. by rewrite getValue_nil.
Qed.

(** X12: [update(s, a, ...)] changes what [getValue] and [getPolicy] return
    for a state only if the state is [s] and [a] is one of its legal
    actions. *)
Theorem update_frame_value_policy s a ns r self s' :
  ¬ (s' = s ∧ a ∈ getLegalActions self s') →
  eval (getValue s') (exec (update s a ns r) self) = eval (getValue s') self
  ∧ eval (getPolicy s') (exec (update s a ns r) self)
    = eval (getPolicy s') self.
Proof. apply greedy_reads_after_update. Qed.


(** X15: two writes to the same pair leave the agent as the second alone
    does, and writes to different pairs can be made in either order. *)
Theorem setQValue_overwrites_and_commutes s1 a1 v1 s2 a2 v2 self :
  exec (setQValue s1 a1 v2) (exec (setQValue s1 a1 v1) self)
    = exec (setQValue s1 a1 v2) self
  ∧ ((s1, a1) ≠ (s2, a2) →
     exec (setQValue s1 a1 v1) (exec (setQValue s2 a2 v2) self)
       = exec (setQValue s2 a2 v2) (exec (setQValue s1 a1 v1) self)).
Proof.
  unfold exec. rewrite !setQValue_run. simpl. split.
  - unfold set_qValues. simpl. by rewrite setitem_setitem.
  - intros Hne. unfold set_qValues. simpl. by rewrite setitem_commute.
Qed.

End LearnerProperties.


(** ** The further properties at the demo agent *)

Lemma methods_keep_settings_demo :
  is_assignment (CallUpdate "s" "a" "next" (PyInt 5)) = false
  ∧ alpha (run_call (CallUpdate "s" "a" "next" (PyInt 5)) demo_agent)
    = alpha demo_agent
  ∧ epsilon (run_call (CallUpdate "s" "a" "next" (PyInt 5)) demo_agent)
    = epsilon demo_agent.
Proof.
  assert (Hc : is_assignment
                 (CallUpdate (State := string) (Action := string)
                    "s" "a" "next" (PyInt 5)) = false) by reflexivity.
  destruct (methods_keep_settings _ demo_agent Hc) as (_ & Hal & Hep & _).
  split; [exact Hc|]. split; [exact Hal|exact Hep].
Defined.

Lemma store_never_forgets_demo :
  is_Some (entry (_qValues demo_agent) "next" "b")
  ∧ is_Some
      (entry
         (_qValues
            (run_calls
               [CallUpdate "next" "b" "s" (PyInt 1);
                CallSetQValue "next" "b" (PyInt 3);
                AssignAlpha (PyInt 0); CallGetPolicy "s"] demo_agent))
         "next" "b").
Proof.
  assert (Hs : is_Some (entry (_qValues demo_agent) "next" "b"))
    by (by eexists).
  split; [exact Hs|].
  exact (store_never_forgets
           [CallUpdate "next" "b" "s" (PyInt 1);
            CallSetQValue "next" "b" (PyInt 3);
            AssignAlpha (PyInt 0); CallGetPolicy "s"]
           demo_agent "next" "b" Hs).
Defined.

Lemma getAction_explores_when_epsilon_one_demo :
  (1 <= val (epsilon (set_epsilon (PyFloat 1) demo_tie)))%Q
  ∧ (val (PyFloat float_0_5) < 1)%Q
  ∧ getAction "s" (PyFloat float_0_5) 2 (set_epsilon (PyFloat 1) demo_tie)
    = (getLegalActions (set_epsilon (PyFloat 1) demo_tie) "s" !! 2,
       set_epsilon (PyFloat 1) demo_tie).
Proof.
  assert (Hep : (1 <= val (epsilon (set_epsilon (PyFloat 1) demo_tie)))%Q)
    by (vm_compute; discriminate).
  assert (Hu : (val (PyFloat float_0_5) < 1)%Q) by (vm_compute; reflexivity).
  assert (HA : getLegalActions (set_epsilon (PyFloat 1) demo_tie) "s" ≠ [])
    by discriminate.
  assert (Hk : 2 < length
                     (getLegalActions (set_epsilon (PyFloat 1) demo_tie) "s"))
    by (simpl; lia).
  split; [exact Hep|]. split; [exact Hu|].
  exact (proj1 (getAction_explores_when_epsilon_one "s" (PyFloat float_0_5)
                  2 (set_epsilon (PyFloat 1) demo_tie) Hep Hu HA Hk)).
Defined.



Lemma unwritten_state_policy_is_first_action_demo :
  eval (getValue "s")
    (run_calls
       [CallSetQValue "next" "b" (PyInt 10);
        CallUpdate "next" "b" "s" (PyInt 1); CallGetValue "s"]
       (__init__ (PyFloat float_0_5) (PyFloat 0) (PyFloat float_0_9)
          demo_actions)) = PyInt 0
  ∧ eval (getPolicy "s")
      (run_calls
         [CallSetQValue "next" "b" (PyInt 10);
          CallUpdate "next" "b" "s" (PyInt 1); CallGetValue "s"]
         (__init__ (PyFloat float_0_5) (PyFloat 0) (PyFloat float_0_9)
            demo_actions)) = Some "a".
Proof.
  assert (HA : demo_actions "s" = ["a"; "x"; "y"]) by reflexivity.
  assert (Hcs : ∀ a : string, a ∈ ["a"; "x"; "y"] →
            Forall (λ c : call string string, writes_pair "s" a c = false)
              [CallSetQValue "next" "b" (PyInt 10);
               CallUpdate "next" "b" "s" (PyInt 1); CallGetValue "s"])
    by (intros a _; repeat constructor).
  exact (unwritten_state_policy_is_first_action (PyFloat float_0_5)
           (PyFloat 0) (PyFloat float_0_9) demo_actions _ "s" "a"
           ["x"; "y"] HA Hcs).
Defined.

Lemma update_frame_value_policy_demo :
  eval (getValue "next")
    (exec (update "s" "a" "next" (PyInt 5)) demo_agent)
    = eval (getValue "next") demo_agent
  ∧ eval (getPolicy "next")
      (exec (update "s" "a" "next" (PyInt 5)) demo_agent)
    = eval (getPolicy "next") demo_agent.
Proof.
  assert (Hn : ¬ ("next" = "s" ∧ "a" ∈ getLegalActions demo_agent "next"))
    by (intros [Heq _]; discriminate Heq).
  exact (update_frame_value_policy "s" "a" "next" (PyInt 5) demo_agent
           "next" Hn).
Defined.

